(** * Verification of [src/reranking/mlx_reranker.py]

    A shallow embedding of the reranker script: the model loader
    [load_model], the scorer [rerank_documents], the command-line entry
    point [main] and the guarded start of the script, followed by the
    properties of the ranking contract and of what a run prints.

    Modelling conventions.
    - A Python [str] is a [string] whose characters are read as the code
      points U+0000..U+00FF.
    - A Python [set] of strings is a [gset string].
    - The score [overlap / total] is Python's true division of two
      integers; it is represented by the exact rational it rounds.
      Rounding to binary64 is monotone and leaves 0 and 1 fixed, so order
      and bound statements carry over to the rounded value.
    - A raised exception is a value of the left summand of a sum type;
      only subclasses of [Exception] are represented, since those are
      what the [except Exception] clauses of the script intercept.
    - The external calls [mlx_lm.load] and [json.loads] are section
      variables. *)

From Stdlib Require Import Ascii String QArith Lqa.
From stdpp Require Import gmap strings list sorting.

Set Warnings "-register-all".
Local Open Scope string_scope.

(** ** Python strings *)

Module PyStr.

(** [str.isspace] on one character, restricted to U+0000..U+00FF:
    TAB..CR, FS..US, SPACE, NEL and NBSP. *)
Definition isspace (c : ascii) : bool :=
  let n := N_of_ascii c in
  ((9 <=? n) && (n <=? 13) || (28 <=? n) && (n <=? 32)
   || (n =? 133) || (n =? 160))%N.

(** [str.lower] on one character: A..Z and the upper-case letters of
    Latin-1 (U+00C0..U+00DE without the multiplication sign U+00D7)
    move up by 32. *)
Definition lower_char (c : ascii) : ascii :=
  let n := N_of_ascii c in
  if ((65 <=? n) && (n <=? 90)
      || (192 <=? n) && (n <=? 222) && negb (n =? 215))%N
  then ascii_of_N (n + 32) else c.

Fixpoint lower (s : string) : string :=
  match s with
  | EmptyString => EmptyString
  | String c s' => String (lower_char c) (lower s')
  end.

(** The word collected so far, if any ([acc] holds it reversed). *)
Definition flush (acc : list ascii) : list string :=
  match acc with
  | [] => []
  | _ => [string_of_list_ascii (rev acc)]
  end.

Fixpoint split_from (acc : list ascii) (s : string) : list string :=
  match s with
  | EmptyString => flush acc
  | String c s' =>
      if isspace c then flush acc ++ split_from [] s'
      else split_from (c :: acc) s'
  end.

(** [str.split()] without arguments: maximal runs of non-whitespace. *)
Definition split (s : string) : list string := split_from [] s.

End PyStr.

(** ** Values and exceptions *)

(** The values [json.loads] can produce.  A float is kept as its
    binary64 bit pattern; the script never looks inside one. *)
Inductive pyobj : Type :=
| PNone
| PBool (b : bool)
| PInt (z : Z)
| PFloat (bits : Z)
| PStr (s : string)
| PList (l : list pyobj)
| PDict (kvs : list (string * pyobj)).

(** [type(v).__name__]. *)
Definition type_name (v : pyobj) : string :=
  match v with
  | PNone => "NoneType"
  | PBool _ => "bool"
  | PInt _ => "int"
  | PFloat _ => "float"
  | PStr _ => "str"
  | PList _ => "list"
  | PDict _ => "dict"
  end.

Inductive exn_class : Type :=
| RuntimeError
| ValueError
| AttributeError
| JSONDecodeError
| OtherException (name : string).

(** An exception instance: its class and [str(e)]. *)
Record exn : Type := Raise { exn_type : exn_class; exn_str : string }.

(** [isinstance(e, json.JSONDecodeError)]. *)
Definition is_JSONDecodeError (e : exn) : bool :=
  match exn_type e with
  | JSONDecodeError => true
  | _ => false
  end.

(** The outcome of a call that may raise. *)
Definition result (A : Type) : Type := exn + A.

Definition bind {A B : Type} (m : result A) (k : A -> result B) : result B :=
  match m with
  | inl e => inl e
  | inr a => k a
  end.

Notation "'let*' x := m 'in' k" := (bind m (fun x => k))
  (at level 10, x name, m at level 100, k at level 200, only parsing).

(** [try: body except Exception as e: raise RuntimeError(msg)], where
    [msg] is the f-string of the handler, a function of [str(e)]. *)
Definition wrap_exceptions {A : Type} (msg : string -> string)
    (body : result A) : result A :=
  match body with
  | inl e => inl (Raise RuntimeError (msg (exn_str e)))
  | inr a => inr a
  end.

(** Attribute lookup [doc.lower] followed by the call: only [str] has the
    method among the values of [pyobj]. *)
Definition call_lower (doc : pyobj) : result string :=
  match doc with
  | PStr s => inr (PyStr.lower s)
  | v => inl (Raise AttributeError
                ("'" ++ type_name v ++ "' object has no attribute 'lower'"))
  end.

(** ** Scoring *)

(** One entry of the result list, [{"index": idx, "score": score}]. *)
Record ScoreResult : Type := { index : nat; score : Q }.

(** [a / b] on non-negative integers with [b > 0]. *)
Definition true_div (a b : nat) : Q := Z.of_nat a # Pos.of_nat b.

(** Lines 59-63: the body of the loop, for a query and an already
    lower-cased document. *)
Definition similarity (query : string) (doc_lower : string) : Q :=
  let query_words : gset string := list_to_set (PyStr.split (PyStr.lower query)) in
  let doc_words : gset string := list_to_set (PyStr.split doc_lower) in
  let overlap := size (query_words ∩ doc_words) in
  let total := size (query_words ∪ doc_words) in
  if (0 <? total)%nat then true_div overlap total else 0%Q.

(** The score of a document string. *)
Definition score_of (query doc : string) : Q :=
  similarity query (PyStr.lower doc).

(** Lines 55-68: [enumerate(documents)] with [results.append]. *)
Fixpoint score_loop (query : string) (idx : nat) (documents : list pyobj)
    (results : list ScoreResult) : result (list ScoreResult) :=
  match documents with
  | [] => inr results
  | doc :: rest =>
      let* d := call_lower doc in
      score_loop query (S idx) rest
        (results ++ [{| index := idx; score := similarity query d |}])
  end.

(** ** Sorting and slicing *)

(** [list.sort(key=lambda x: x["score"], reverse=True)].  The sort is
    stable, also under [reverse=True], so its result is the stable
    rearrangement by decreasing key: an entry is placed after the entries
    of strictly greater score and before every other one that followed it
    in the input. *)
Fixpoint insert_desc (x : ScoreResult) (l : list ScoreResult) : list ScoreResult :=
  match l with
  | [] => [x]
  | y :: l' =>
      match (score x ?= score y)%Q with
      | Lt => y :: insert_desc x l'
      | _ => x :: y :: l'
      end
  end.

Definition sort_by_score_desc (l : list ScoreResult) : list ScoreResult :=
  foldr insert_desc [] l.

(** The bound of the slice [l[:stop]] as Python clamps it: a negative
    [stop] counts from the end, and the outcome is kept within
    [0..len]. *)
Definition slice_stop (len : nat) (stop : Z) : nat :=
  let stop := if (stop <? 0)%Z then Z.max 0 (stop + Z.of_nat len) else stop in
  Z.to_nat (Z.min stop (Z.of_nat len)).

Definition slice_to {A : Type} (l : list A) (stop : Z) : list A :=
  take (slice_stop (length l) stop) l.

(** ** The script *)

(** What the script hands to [json.dumps] before printing it: the object
    [{"error": msg}] or the object [{"results": results}]. *)
Inductive payload : Type :=
| ErrorObject (msg : string)
| ResultsObject (results : list ScoreResult).

(** What a run leaves behind: the lines printed on each stream and the
    exit status. *)
Record outcome : Type :=
  { stdout : list payload; stderr : list payload; exit_status : Z }.

(** The parsed command line ([args] of [main]). *)
Record arguments : Type :=
  { arg_query : string; arg_model : string; arg_top_k : Z;
    arg_documents : string }.

Section Script.

(** The handles [mlx_lm.load] returns, and the call itself. *)
Context {model tokenizer : Type}.
Variable load : string -> result (model * tokenizer).

(** [json.loads]. *)
Variable json_loads : string -> result pyobj.

(** Lines 20-29. *)
Definition load_model (model_path : string) : result (model * tokenizer) :=
  wrap_exceptions
    (fun e => "Failed to load model from " ++ model_path ++ ": " ++ e)
    (let* mt := load model_path in
     inr (fst mt, snd mt)).

(** Lines 32-75. *)
Definition rerank_documents (query : string) (documents : list pyobj)
    (model_path : string) (top_k : Z) : result (list ScoreResult) :=
  wrap_exceptions (fun e => "Reranking failed: " ++ e)
    (let* _mt := load_model model_path in
     let* results := score_loop query 0 documents [] in
     let results := sort_by_score_desc results in
     inr (slice_to results top_k)).

(** Lines 88-104: the body of the [try] of [main]. *)
Definition main_body (args : arguments) : result (list ScoreResult) :=
  let* documents := json_loads (arg_documents args) in
  let* documents :=
    match documents with
    | PList l => inr l
    | _ => inl (Raise ValueError "Documents must be a JSON array")
    end in
  rerank_documents (arg_query args) documents (arg_model args) (arg_top_k args).

(** Lines 78-111, after [parser.parse_args()]. *)
Definition main (args : arguments) : outcome :=
  match main_body args with
  | inr results =>
      {| stdout := [ResultsObject results]; stderr := []; exit_status := 0 |}
  | inl e =>
      if is_JSONDecodeError e then
        {| stdout := [];
           stderr := [ErrorObject ("Invalid JSON in documents: " ++ exn_str e)];
           exit_status := 1 |}
      else
        {| stdout := []; stderr := [ErrorObject (exn_str e)];
           exit_status := 1 |}
  end.

End Script.


(** ** The contract in the words of the specification *)

(** The set of lower-cased whitespace-delimited tokens of a text: the
    text is cut at whitespace and every token is lower-cased. *)
Definition tokens (s : string) : gset string :=
  list_to_set (PyStr.lower <$> PyStr.split s).

(** Jaccard similarity, with the value 0 when both sets are empty. *)
Definition jaccard (A B : gset string) : Q :=
  if decide (A = ∅ ∧ B = ∅) then 0%Q
  else Z.of_nat (size (A ∩ B)) # Pos.of_nat (size (A ∪ B)).

(** The entries the loop records for a list of document strings, the
    first of them at position [idx]. *)
Fixpoint entries (query : string) (idx : nat) (docs : list string) : list ScoreResult :=
  match docs with
  | [] => []
  | d :: rest => {| index := idx; score := score_of query d |} :: entries query (S idx) rest
  end.

(** The full ranking of a list of document strings. *)
Definition ranking (query : string) (docs : list string) : list ScoreResult :=
  sort_by_score_desc (entries query 0 docs).

(** Entry [a] may stand before entry [b] in the ranking: its score is not
    smaller, and on a tie it comes from an earlier document. *)
Definition ranks_before (a b : ScoreResult) : Prop :=
  (score b <= score a)%Q ∧ ((score a == score b)%Q → index a < index b).

(** ** Fixtures for the concrete instances *)

(** A loader that knows one model directory. *)
Definition one_model_load (p : string) : result (unit * unit) :=
  if String.eqb p "models/jina" then inr (tt, tt)
  else inl (Raise (OtherException "FileNotFoundError") "no such directory").

(** A second loader, with other handles, for the same directory. *)
Definition other_model_load (p : string) : result (nat * bool) :=
  if String.eqb p "models/jina" then inr (7, true)
  else inl (Raise (OtherException "OSError") "unreadable").

(** A decoder that knows three inputs. *)
Definition small_json_loads (s : string) : result pyobj :=
  if String.eqb s "{}" then inr (PDict [])
  else if String.eqb s "[]" then inr (PList [])
  else if String.eqb s "3" then inr (PInt 3)
  else inl (Raise JSONDecodeError "Expecting value: line 1 column 1 (char 0)").

(** The JSON text of a string without special characters. *)
Definition json_quoted (s : string) : string :=
  String (ascii_of_nat 34) s ++ String (ascii_of_nat 34) EmptyString.

(** A decoder that knows one array of strings and one array of numbers. *)
Definition array_json_loads (s : string) : result pyobj :=
  if String.eqb s ("[" ++ json_quoted "apple pie" ++ ", " ++ json_quoted "Apple" ++ "]")
  then inr (PList [PStr "apple pie"; PStr "Apple"])
  else if String.eqb s "[1]" then inr (PList [PInt 1])
  else inl (Raise JSONDecodeError "Expecting value: line 1 column 1 (char 0)").

Definition array_args : arguments :=
  {| arg_query := "apple"; arg_model := "models/jina"; arg_top_k := 10;
     arg_documents :=
       "[" ++ json_quoted "apple pie" ++ ", " ++ json_quoted "Apple" ++ "]" |}.

Definition sample_docs : list string :=
  ["apple banana cherry"; "cherry date"; "apple"].

(** * Properties *)

(** ** The script on concrete inputs *)

Example split_lower_text :
  PyStr.split (PyStr.lower "  Apple  BANANA cherry ")
  = ["apple"; "banana"; "cherry"].
Proof. reflexivity. Qed.

Example rerank_scenario :
  rerank_documents one_model_load "apple banana" (PStr <$> sample_docs)
    "models/jina" 2
  = inr [ {| index := 0; score := 2 # 3 |}; {| index := 2; score := 1 # 2 |} ].
Proof. vm_compute. reflexivity. Qed.

Example rerank_ties_keep_document_order :
  rerank_documents one_model_load "cherry" (PStr <$> ["date"; "cherry"; "fig"; "CHERRY"])
    "models/jina" 10
  = inr [ {| index := 1; score := 1 # 1 |}; {| index := 3; score := 1 # 1 |};
          {| index := 0; score := 0 # 2 |}; {| index := 2; score := 0 # 2 |} ].
Proof. vm_compute. reflexivity. Qed.

Example rerank_empty_texts :
  rerank_documents one_model_load "" (PStr <$> [" "; ""]) "models/jina" 10
  = inr [ {| index := 0; score := 0 |}; {| index := 1; score := 0 |} ].
Proof. vm_compute. reflexivity. Qed.

Example main_invalid_json :
  main one_model_load small_json_loads
    {| arg_query := "apple"; arg_model := "models/jina"; arg_top_k := 10;
       arg_documents := "not json" |}
  = {| stdout := [];
       stderr := [ErrorObject
         "Invalid JSON in documents: Expecting value: line 1 column 1 (char 0)"];
       exit_status := 1 |}.
Proof. reflexivity. Qed.

Example main_empty_array :
  main one_model_load small_json_loads
    {| arg_query := "apple"; arg_model := "models/jina"; arg_top_k := 10;
       arg_documents := "[]" |}
  = {| stdout := [ResultsObject []]; stderr := []; exit_status := 0 |}.
Proof. reflexivity. Qed.

(** ** Tokenisation *)

Lemma isspace_lower_char c : PyStr.isspace (PyStr.lower_char c) = PyStr.isspace c.
Proof. by destruct c as [[] [] [] [] [] [] [] []]. Qed.

Lemma lower_of_list l :
  PyStr.lower (string_of_list_ascii l)
  = string_of_list_ascii (map PyStr.lower_char l).
Proof. induction l as [|c l IH]; simpl; [done | by rewrite IH]. Qed.

Lemma flush_lower acc :
  PyStr.flush (map PyStr.lower_char acc) = PyStr.lower <$> PyStr.flush acc.
Proof.
  destruct acc as [|c acc]; [done|].
  change (PyStr.flush (map PyStr.lower_char (c :: acc)))
    with [string_of_list_ascii (rev (map PyStr.lower_char (c :: acc)))].
  change (PyStr.lower <$> PyStr.flush (c :: acc))
    with [PyStr.lower (string_of_list_ascii (rev (c :: acc)))].
  by rewrite lower_of_list, map_rev.
Qed.

Lemma split_from_lower s : ∀ acc,
  PyStr.split_from (map PyStr.lower_char acc) (PyStr.lower s)
  = PyStr.lower <$> PyStr.split_from acc s.
Proof.
  induction s as [|c s IH]; intros acc; simpl.
  - apply flush_lower.
  - rewrite isspace_lower_char. destruct (PyStr.isspace c).
    + rewrite fmap_app, <- flush_lower. f_equal. apply (IH []).
    + apply (IH (c :: acc)).
Qed.

(** Lower-casing the text and then cutting it gives the lower-cased
    tokens of the text. *)
Lemma split_lower s :
  PyStr.split (PyStr.lower s) = PyStr.lower <$> PyStr.split s.
Proof. apply (split_from_lower s []). Qed.

Lemma query_words_tokens s :
  list_to_set (PyStr.split (PyStr.lower s)) = tokens s.
Proof. unfold tokens. by rewrite split_lower. Qed.

(** ** The score *)

Lemma score_of_unfold q d :
  score_of q d =
    if (0 <? size (tokens q ∪ tokens d))%nat
    then true_div (size (tokens q ∩ tokens d)) (size (tokens q ∪ tokens d))
    else 0%Q.
Proof. unfold score_of, similarity. by rewrite !query_words_tokens. Qed.

Lemma union_empty_size (A B : gset string) :
  size (A ∪ B) = 0 ↔ A = ∅ ∧ B = ∅.
Proof.
  rewrite size_empty_iff. split.
  - intros H. split; apply leibniz_equiv; set_solver.
  - intros [-> ->]. set_solver.
Qed.

Lemma size_inter_comm (A B : gset string) : size (A ∩ B) = size (B ∩ A).
Proof. by rewrite (comm_L (∩) A B). Qed.

Lemma size_union_comm (A B : gset string) : size (A ∪ B) = size (B ∪ A).
Proof. by rewrite (comm_L (∪) A B). Qed.

Lemma true_div_bounds (a b : nat) :
  (a ≤ b)%nat → (0 < b)%nat → (0 <= true_div a b <= 1)%Q.
Proof.
  intros Hab Hb. unfold true_div, Qle. simpl.
  rewrite <- positive_nat_Z, Nat2Pos.id by lia. lia.
Qed.

(** ** The stable sort *)

Lemma insert_desc_perm x l : insert_desc x l ≡ₚ x :: l.
Proof.
  induction l as [|y l IH]; simpl; [done|].
  destruct (score x ?= score y)%Q; [done| |done].
  rewrite IH. apply perm_swap.
Qed.

Lemma sort_by_score_desc_perm l : sort_by_score_desc l ≡ₚ l.
Proof.
  induction l as [|x l IH]; simpl; [done|].
  by rewrite insert_desc_perm, IH.
Qed.

Lemma sort_by_score_desc_length l :
  length (sort_by_score_desc l) = length l.
Proof. apply Permutation_length, sort_by_score_desc_perm. Qed.

(** An entry that comes from an earlier document than every entry of a
    ranked list finds its place in the ranking. *)
Lemma insert_desc_ranked x l :
  StronglySorted ranks_before l →
  Forall (λ y, (index x < index y)%nat) l →
  StronglySorted ranks_before (insert_desc x l).
Proof.
  induction l as [|y l IH]; intros Hl Hx; simpl.
  { repeat constructor. }
  apply StronglySorted_cons in Hl as [Hy Hl].
  apply Forall_cons in Hx as [Hxy Hx].
  destruct (score x ?= score y)%Q eqn:Hc.
  - apply Qeq_alt in Hc.
    apply StronglySorted_cons. split; [|by apply StronglySorted_cons].
    apply Forall_cons. split.
    + split; [lra | done].
    + apply Forall_forall. intros z Hz.
      rewrite Forall_forall in Hy, Hx.
      destruct (Hy z Hz) as [Hle _]. split; [lra | intros _; by apply Hx].
  - apply Qlt_alt in Hc.
    apply StronglySorted_cons. split; [|by apply IH].
    rewrite insert_desc_perm. apply Forall_cons. split; [|done].
    split; [lra | intros Heq; lra].
  - apply Qgt_alt in Hc.
    apply StronglySorted_cons. split; [|by apply StronglySorted_cons].
    apply Forall_cons. split.
    + split; [lra | done].
    + apply Forall_forall. intros z Hz.
      rewrite Forall_forall in Hy, Hx.
      destruct (Hy z Hz) as [Hle _]. split; [lra | intros _; by apply Hx].
Qed.

(** Sorting a list whose entries are in document order ranks it. *)
Lemma sort_by_score_desc_ranked l :
  StronglySorted (λ a b, (index a < index b)%nat) l →
  StronglySorted ranks_before (sort_by_score_desc l).
Proof.
  induction l as [|x l IH]; intros Hl; simpl; [constructor|].
  apply StronglySorted_cons in Hl as [Hx Hl].
  apply insert_desc_ranked; [by apply IH|].
  by rewrite sort_by_score_desc_perm.
Qed.

Lemma StronglySorted_lookup {A} (R : relation A) l (i j : nat) a b :
  StronglySorted R l → (i < j)%nat →
  l !! i = Some a → l !! j = Some b → R a b.
Proof.
  intros Hl. revert i j. induction Hl as [|x l Hl IH Hx]; intros i j Hij Hi Hj.
  { done. }
  destruct j as [|j]; [lia|]. destruct i as [|i]; simpl in *.
  - injection Hi as <-. by eapply Forall_lookup_1.
  - eapply IH; [|done..]. lia.
Qed.

Lemma StronglySorted_take {A} (R : relation A) n l :
  StronglySorted R l → StronglySorted R (take n l).
Proof.
  intros Hl. rewrite <- (take_drop n l) in Hl.
  by apply StronglySorted_app_1_l in Hl.
Qed.

(** ** The loop over the documents *)

Lemma entries_index q docs : ∀ i,
  index <$> entries q i docs = seq i (length docs).
Proof.
  induction docs as [|d docs IH]; intros i; simpl; [done|].
  by rewrite <- IH.
Qed.

Lemma entries_length q i docs : length (entries q i docs) = length docs.
Proof.
  by rewrite <- (length_fmap index), entries_index, length_seq.
Qed.

Lemma entries_index_range q i docs r :
  r ∈ entries q i docs → (i ≤ index r < i + length docs)%nat.
Proof.
  intros Hr. apply (list_elem_of_fmap_2 index) in Hr.
  rewrite entries_index in Hr. by apply elem_of_seq in Hr.
Qed.

Lemma entries_in_order q docs : ∀ i,
  StronglySorted (λ a b, (index a < index b)%nat) (entries q i docs).
Proof.
  induction docs as [|d docs IH]; intros i; simpl; constructor; [done|].
  apply Forall_forall. intros r Hr.
  apply entries_index_range in Hr. simpl. lia.
Qed.

Lemma score_loop_strings q docs : ∀ i acc,
  score_loop q i (PStr <$> docs) acc = inr (acc ++ entries q i docs)%list.
Proof.
  induction docs as [|d docs IH]; intros i acc; simpl.
  - by rewrite app_nil_r.
  - rewrite IH. by rewrite <- app_assoc.
Qed.

Lemma score_loop_raises q pre v post : ∀ i acc,
  (∀ s, v ≠ PStr s) →
  score_loop q i ((PStr <$> pre) ++ v :: post) acc
  = inl (Raise AttributeError
           ("'" ++ type_name v ++ "' object has no attribute 'lower'")).
Proof.
  induction pre as [|d pre IH]; intros i acc Hv; simpl.
  - destruct v; try done. by destruct (Hv s).
  - by apply IH.
Qed.

(** The loop returns a list only when every document is a string, and
    then it returns every entry. *)
Lemma score_loop_returns q docs : ∀ i acc rs,
  score_loop q i docs acc = inr rs →
  ∃ strs, docs = PStr <$> strs ∧ rs = (acc ++ entries q i strs)%list.
Proof.
  induction docs as [|v docs IH]; intros i acc rs Hrs; simpl in Hrs.
  - exists []. injection Hrs as <-. by rewrite app_nil_r.
  - destruct v; try discriminate Hrs. simpl in Hrs.
    destruct (IH _ _ _ Hrs) as (strs & -> & ->).
    exists (s :: strs). by rewrite <- app_assoc.
Qed.

(** ** Slicing *)

Lemma slice_stop_nonneg len k :
  (0 ≤ k)%Z → slice_stop len k = Nat.min (Z.to_nat k) len.
Proof.
  intros Hk. unfold slice_stop.
  destruct (Z.ltb_spec k 0); lia.
Qed.

Lemma slice_stop_negative len k :
  (k < 0)%Z → slice_stop len k = Z.to_nat (Z.max 0 (Z.of_nat len + k)).
Proof.
  intros Hk. unfold slice_stop.
  destruct (Z.ltb_spec k 0); lia.
Qed.

(** ** Reranking lists of strings *)

Section Rerank.

Context {model tokenizer : Type}.
Variable load : string → result (model * tokenizer).
Variables (query : string) (docs : list string) (model_path : string).

Lemma load_model_returns mt :
  load model_path = inr mt → load_model load model_path = inr mt.
Proof. unfold load_model. intros ->. by destruct mt. Qed.

Lemma rerank_documents_strings top_k mt :
  load model_path = inr mt →
  rerank_documents load query (PStr <$> docs) model_path top_k
  = inr (slice_to (ranking query docs) top_k).
Proof.
  intros Hload. unfold rerank_documents.
  rewrite (load_model_returns _ Hload). simpl.
  by rewrite score_loop_strings.
Qed.

Lemma ranking_length : length (ranking query docs) = length docs.
Proof.
  unfold ranking. by rewrite sort_by_score_desc_length, entries_length.
Qed.

Lemma ranking_ranked : StronglySorted ranks_before (ranking query docs).
Proof. apply sort_by_score_desc_ranked, entries_in_order. Qed.

Lemma ranking_index : index <$> ranking query docs ≡ₚ seq 0 (length docs).
Proof.
  unfold ranking. by rewrite sort_by_score_desc_perm, entries_index.
Qed.

Lemma slice_ranked top_k : StronglySorted ranks_before (slice_to (ranking query docs) top_k).
Proof. apply StronglySorted_take, ranking_ranked. Qed.

End Rerank.

(** C1.  For every query and document, the computed score is the Jaccard
    similarity of the two sets of lower-cased whitespace-delimited tokens,
    it is 0 when both sets are empty, and it lies between 0 and 1. *)
Theorem score_is_jaccard (query doc : string) :
  score_of query doc = jaccard (tokens query) (tokens doc)
  ∧ (tokens query = ∅ → tokens doc = ∅ → score_of query doc = 0%Q)
  ∧ (0 <= score_of query doc <= 1)%Q.
Proof.
  rewrite score_of_unfold. unfold jaccard.
  set (A := tokens query). set (B := tokens doc).
  pose proof (union_empty_size A B) as Hempty.
  destruct (Nat.ltb_spec 0 (size (A ∪ B))) as [Hpos|Hzero].
  - split; [|split].
    + rewrite decide_False; [done|]. rewrite <- Hempty. lia.
    + intros HA HB. assert (size (A ∪ B) = 0%nat) by (by apply Hempty). lia.
    + apply true_div_bounds; [|done].
      apply subseteq_size.
      etrans; [apply intersection_subseteq_l | apply union_subseteq_l].
  - split; [|split].
    + rewrite decide_True; [done|]. apply Hempty. lia.
    + done.
    + done.
Qed.

Lemma score_is_jaccard_witness :
  score_of "" "   " = jaccard (tokens "") (tokens "   ")
  ∧ score_of "" "   " = 0%Q
  ∧ (0 <= score_of "" "   " <= 1)%Q.
Proof.
  destruct (score_is_jaccard "" "   ") as (Heq & Hzero & Hbounds).
  split; [exact Heq | split; [apply Hzero; reflexivity | exact Hbounds]].
Defined.

(** C8.  The score is symmetric in the query and the document. *)
Theorem score_symmetric (q d : string) : score_of q d = score_of d q.
Proof.
  rewrite !score_of_unfold.
  by rewrite (size_inter_comm (tokens q)), (size_union_comm (tokens q)).
Qed.

(** ** The ranking contract *)

(** C2.  When the model loads and [top_k] is not negative, the result has
    exactly [min(top_k, len(documents))] entries; with [top_k = 0] it is
    the empty list. *)
Theorem rerank_documents_length {M T : Type} (load : string → result (M * T))
    (query : string) (docs : list string) (model_path : string) (top_k : Z)
    (mt : M * T) :
  load model_path = inr mt →
  (0 ≤ top_k)%Z →
  ∃ rs, rerank_documents load query (PStr <$> docs) model_path top_k = inr rs
        ∧ length rs = Nat.min (Z.to_nat top_k) (length docs)
        ∧ (top_k = 0%Z → rs = []).
Proof.
  intros Hload Hk. eexists. split; [by eapply rerank_documents_strings|].
  unfold slice_to. rewrite ranking_length, slice_stop_nonneg by done.
  split.
  - rewrite length_take, ranking_length. lia.
  - by intros ->.
Qed.

Lemma rerank_documents_length_witness :
  (∃ rs, rerank_documents one_model_load "apple banana" (PStr <$> sample_docs)
           "models/jina" 2 = inr rs
         ∧ length rs = 2%nat)
  ∧ rerank_documents one_model_load "apple banana" (PStr <$> sample_docs)
      "models/jina" 0 = inr [].
Proof.
  split.
  - destruct (rerank_documents_length one_model_load "apple banana" sample_docs
                "models/jina" 2 (tt, tt) eq_refl) as (rs & Hrs & Hlen & _).
    + lia.
    + exists rs. split; [exact Hrs | exact Hlen].
  - destruct (rerank_documents_length one_model_load "apple banana" sample_docs
                "models/jina" 0 (tt, tt) eq_refl) as (rs & Hrs & _ & Hnil).
    + lia.
    + rewrite Hrs. f_equal. apply Hnil. reflexivity.
Defined.

(** C3.  When the model loads and [top_k] is not negative, the result is
    sorted by decreasing score: each entry's score is at least the score
    of the entry that follows it. *)
Theorem rerank_documents_sorted {M T : Type} (load : string → result (M * T))
    (query : string) (docs : list string) (model_path : string) (top_k : Z)
    (mt : M * T) :
  load model_path = inr mt →
  (0 ≤ top_k)%Z →
  ∃ rs, rerank_documents load query (PStr <$> docs) model_path top_k = inr rs
        ∧ ∀ (i : nat) a b, rs !! i = Some a → rs !! S i = Some b →
            (score b <= score a)%Q.
Proof.
  intros Hload _. eexists. split; [by eapply rerank_documents_strings|].
  intros i a b Ha Hb.
  by destruct (StronglySorted_lookup ranks_before _ i (S i) a b
                 (slice_ranked query docs top_k) (Nat.lt_succ_diag_r i) Ha Hb).
Qed.

Lemma rerank_documents_sorted_witness :
  ∃ rs, rerank_documents one_model_load "apple banana" (PStr <$> sample_docs)
          "models/jina" 3 = inr rs
        ∧ ∀ (i : nat) a b, rs !! i = Some a → rs !! S i = Some b →
            (score b <= score a)%Q.
Proof.
  apply (rerank_documents_sorted one_model_load "apple banana" sample_docs
           "models/jina" 3 (tt, tt) eq_refl).
  lia.
Defined.

(** C4.  When the model loads and [top_k] is not negative, every index of
    the result is a position of the input list, and no index occurs
    twice. *)
Theorem rerank_documents_indices {M T : Type} (load : string → result (M * T))
    (query : string) (docs : list string) (model_path : string) (top_k : Z)
    (mt : M * T) :
  load model_path = inr mt →
  (0 ≤ top_k)%Z →
  ∃ rs, rerank_documents load query (PStr <$> docs) model_path top_k = inr rs
        ∧ Forall (λ r, (index r < length docs)%nat) rs
        ∧ NoDup (index <$> rs).
Proof.
  intros Hload _. eexists. split; [by eapply rerank_documents_strings|].
  pose proof (ranking_index query docs) as Hperm.
  unfold slice_to. split.
  - apply Forall_take, Forall_forall. intros r Hr.
    apply (list_elem_of_fmap_2 index) in Hr.
    rewrite Hperm in Hr. apply elem_of_seq in Hr. lia.
  - rewrite fmap_take.
    apply (sublist_NoDup _ (index <$> ranking query docs));
      [|apply sublist_take].
    rewrite Hperm. apply NoDup_seq.
Qed.

Lemma rerank_documents_indices_witness :
  ∃ rs, rerank_documents one_model_load "apple banana" (PStr <$> sample_docs)
          "models/jina" 2 = inr rs
        ∧ Forall (λ r, (index r < 3)%nat) rs
        ∧ NoDup (index <$> rs).
Proof.
  apply (rerank_documents_indices one_model_load "apple banana" sample_docs
           "models/jina" 2 (tt, tt) eq_refl).
  lia.
Defined.

(** C9.  When the model loads and [top_k] is not negative, entries of
    equal score appear in the result in increasing order of their
    document index. *)
Theorem rerank_documents_stable {M T : Type} (load : string → result (M * T))
    (query : string) (docs : list string) (model_path : string) (top_k : Z)
    (mt : M * T) :
  load model_path = inr mt →
  (0 ≤ top_k)%Z →
  ∃ rs, rerank_documents load query (PStr <$> docs) model_path top_k = inr rs
        ∧ ∀ (i j : nat) a b, (i < j)%nat → rs !! i = Some a → rs !! j = Some b →
            (score a == score b)%Q → (index a < index b)%nat.
Proof.
  intros Hload _. eexists. split; [by eapply rerank_documents_strings|].
  intros i j a b Hij Ha Hb Htie.
  destruct (StronglySorted_lookup ranks_before _ i j a b
              (slice_ranked query docs top_k) Hij Ha Hb) as [_ Hidx].
  by apply Hidx.
Qed.

Lemma rerank_documents_stable_witness :
  ∃ rs, rerank_documents one_model_load "pear" (PStr <$> sample_docs)
          "models/jina" 3 = inr rs
        ∧ ∀ (i j : nat) a b, (i < j)%nat → rs !! i = Some a → rs !! j = Some b →
            (score a == score b)%Q → (index a < index b)%nat.
Proof.
  apply (rerank_documents_stable one_model_load "pear" sample_docs
           "models/jina" 3 (tt, tt) eq_refl).
  lia.
Defined.

(** C10.  When the model loads and [top_k] is negative, the result is the
    full ranking without its last [|top_k|] entries: its first
    [max(0, len(documents) + top_k)] entries, in the same order. *)
Theorem rerank_documents_negative_top_k {M T : Type}
    (load : string → result (M * T))
    (query : string) (docs : list string) (model_path : string) (top_k : Z)
    (mt : M * T) :
  load model_path = inr mt →
  (top_k < 0)%Z →
  ∃ full rs,
    rerank_documents load query (PStr <$> docs) model_path
      (Z.of_nat (length docs)) = inr full
    ∧ length full = length docs
    ∧ rerank_documents load query (PStr <$> docs) model_path top_k = inr rs
    ∧ rs = take (Z.to_nat (Z.max 0 (Z.of_nat (length docs) + top_k))) full
    ∧ length rs = Z.to_nat (Z.max 0 (Z.of_nat (length docs) + top_k)).
Proof.
  intros Hload Hk.
  exists (ranking query docs), (slice_to (ranking query docs) top_k).
  pose proof (ranking_length query docs) as Hlen.
  split; [|split; [done|split; [by eapply rerank_documents_strings|]]].
  - rewrite (rerank_documents_strings _ _ _ _ _ _ Hload). f_equal.
    unfold slice_to. rewrite Hlen, slice_stop_nonneg by lia.
    apply take_ge. lia.
  - unfold slice_to. rewrite Hlen, slice_stop_negative by done.
    split; [done|]. rewrite length_take. lia.
Qed.

Lemma rerank_documents_negative_top_k_witness :
  ∃ full rs,
    rerank_documents one_model_load "apple banana" (PStr <$> sample_docs)
      "models/jina" 3 = inr full
    ∧ length full = 3%nat
    ∧ rerank_documents one_model_load "apple banana" (PStr <$> sample_docs)
        "models/jina" (-1) = inr rs
    ∧ rs = take 2 full
    ∧ length rs = 2%nat.
Proof.
  apply (rerank_documents_negative_top_k one_model_load "apple banana"
           sample_docs "models/jina" (-1) (tt, tt) eq_refl).
  lia.
Defined.

(** ** Failures *)

(** C5.  A failure of the loading call leaves [load_model] as one
    [RuntimeError] that names the path and the cause; every failure
    inside [rerank_documents], that one included, leaves it as one
    [RuntimeError] whose message is the cause behind a fixed prefix; and a
    list is returned only when nothing failed, in which case it is the
    slice of the full ranking. *)
Theorem failures_are_wrapped {M T : Type} (load : string → result (M * T))
    (query : string) (documents : list pyobj) (model_path : string)
    (top_k : Z) :
  (∀ e, load model_path = inl e →
     load_model load model_path
     = inl (Raise RuntimeError
              ("Failed to load model from " ++ model_path ++ ": " ++ exn_str e))
     ∧ rerank_documents load query documents model_path top_k
       = inl (Raise RuntimeError
                ("Reranking failed: " ++ "Failed to load model from "
                 ++ model_path ++ ": " ++ exn_str e)))
  ∧ (∀ mt pre v post,
       load model_path = inr mt →
       documents = ((PStr <$> pre) ++ v :: post)%list →
       (∀ s, v ≠ PStr s) →
       rerank_documents load query documents model_path top_k
       = inl (Raise RuntimeError
                ("Reranking failed: " ++ "'" ++ type_name v
                 ++ "' object has no attribute 'lower'")))
  ∧ (∀ e, rerank_documents load query documents model_path top_k = inl e →
       exn_type e = RuntimeError
       ∧ ∃ cause, exn_str e = "Reranking failed: " ++ cause)
  ∧ (∀ rs, rerank_documents load query documents model_path top_k = inr rs →
       ∃ mt strs, load model_path = inr mt
                  ∧ documents = PStr <$> strs
                  ∧ rs = slice_to (ranking query strs) top_k).
Proof.
  unfold rerank_documents, load_model.
  split; [|split; [|split]].
  - by intros e ->.
  - intros mt pre v post -> -> Hv. simpl.
    by rewrite score_loop_raises.
  - intros e He.
    destruct (load model_path) as [e0|mt]; simpl in He.
    { injection He as <-. eauto. }
    destruct (score_loop query 0 documents []) as [e1|rs]; simpl in He;
      [|done].
    injection He as <-. eauto.
  - intros rs Hrs.
    destruct (load model_path) as [e0|mt]; simpl in Hrs; [done|].
    destruct (score_loop query 0 documents []) as [e1|rs'] eqn:Hloop;
      simpl in Hrs; [done|].
    injection Hrs as <-.
    apply score_loop_returns in Hloop as (strs & -> & ->).
    by exists mt, strs.
Qed.

Lemma failures_are_wrapped_witness :
  load_model one_model_load "models/none"
  = inl (Raise RuntimeError
           "Failed to load model from models/none: no such directory")
  ∧ rerank_documents one_model_load "apple" [PStr "apple"; PInt 3] "models/none" 1
    = inl (Raise RuntimeError
             "Reranking failed: Failed to load model from models/none: no such directory")
  ∧ rerank_documents one_model_load "apple" [PStr "apple"; PInt 3] "models/jina" 1
    = inl (Raise RuntimeError
             "Reranking failed: 'int' object has no attribute 'lower'").
Proof.
  destruct (failures_are_wrapped one_model_load "apple" [PStr "apple"; PInt 3]
              "models/none" 1) as (Hload & _).
  destruct (failures_are_wrapped one_model_load "apple" [PStr "apple"; PInt 3]
              "models/jina" 1) as (_ & Hscore & _).
  destruct (Hload _ eq_refl) as [H1 H2].
  split; [exact H1 | split; [exact H2|]].
  apply (Hscore (tt, tt) ["apple"] (PInt 3) [] eq_refl eq_refl).
  intros s Hs. discriminate Hs.
Defined.

(** C6.  The handles have no part in the outcome: two loading calls that
    both succeed give the same result for the same query, documents and
    [top_k]. *)
Theorem handles_are_not_consulted {M1 T1 M2 T2 : Type}
    (load1 : string → result (M1 * T1)) (load2 : string → result (M2 * T2))
    (query : string) (documents : list pyobj) (model_path : string)
    (top_k : Z) (mt1 : M1 * T1) (mt2 : M2 * T2) :
  load1 model_path = inr mt1 →
  load2 model_path = inr mt2 →
  rerank_documents load1 query documents model_path top_k
  = rerank_documents load2 query documents model_path top_k.
Proof.
  intros H1 H2. unfold rerank_documents, load_model. by rewrite H1, H2.
Qed.

Lemma handles_are_not_consulted_witness :
  rerank_documents one_model_load "apple banana" (PStr <$> sample_docs)
    "models/jina" 2
  = rerank_documents other_model_load "apple banana" (PStr <$> sample_docs)
      "models/jina" 2.
Proof.
  apply (handles_are_not_consulted one_model_load other_model_load
           "apple banana" (PStr <$> sample_docs) "models/jina" 2
           (tt, tt) (7%nat, true) eq_refl eq_refl).
Defined.

(** ** The command line *)

(** C7.  When [--documents] decodes to a value that is not an array, the
    run prints one error object on standard error, whose message is
    [Documents must be a JSON array], prints nothing on standard output,
    and exits with status 1. *)
Theorem main_rejects_non_array {M T : Type} (load : string → result (M * T))
    (json_loads : string → result pyobj) (args : arguments) (v : pyobj) :
  json_loads (arg_documents args) = inr v →
  (∀ l, v ≠ PList l) →
  main load json_loads args
  = {| stdout := [];
       stderr := [ErrorObject "Documents must be a JSON array"];
       exit_status := 1 |}.
Proof.
  intros Hv Hnot. unfold main, main_body. rewrite Hv. simpl.
  destruct v; try done. by destruct (Hnot l).
Qed.

Lemma main_rejects_non_array_witness :
  main one_model_load small_json_loads
    {| arg_query := "apple"; arg_model := "models/jina"; arg_top_k := 10;
       arg_documents := "{}" |}
  = {| stdout := [];
       stderr := [ErrorObject "Documents must be a JSON array"];
       exit_status := 1 |}.
Proof.
  apply (main_rejects_non_array one_model_load small_json_loads
           {| arg_query := "apple"; arg_model := "models/jina";
              arg_top_k := 10; arg_documents := "{}" |}
           (PDict []) eq_refl).
  intros l Hl. discriminate Hl.
Defined.

(** * Further properties of the script *)

(** ** The score as a function of the texts *)

Lemma true_div_zero (a b : nat) :
  (0 < b)%nat → (true_div a b == 0)%Q ↔ a = 0%nat.
Proof.
  intros Hb. unfold true_div, Qeq. simpl. lia.
Qed.

Lemma true_div_one (a b : nat) :
  (0 < b)%nat → (true_div a b == 1)%Q ↔ a = b.
Proof.
  intros Hb. unfold true_div, Qeq. simpl.
  rewrite <- (positive_nat_Z (Pos.of_nat b)), Nat2Pos.id by lia. lia.
Qed.

Lemma gset_size_zero (X : gset string) : size X = 0%nat ↔ X = ∅.
Proof.
  rewrite size_empty_iff. split; [apply leibniz_equiv | by intros ->].
Qed.

(** X1.  The score is zero exactly when the query and the document have
    no token in common. *)
Theorem score_zero_iff_disjoint (query doc : string) :
  (score_of query doc == 0)%Q ↔ tokens query ∩ tokens doc = ∅.
Proof.
  rewrite score_of_unfold.
  destruct (Nat.ltb_spec 0 (size (tokens query ∪ tokens doc))) as [Hpos|Hzero].
  - by rewrite true_div_zero, gset_size_zero.
  - split; [intros _|done].
    assert (size (tokens query ∪ tokens doc) = 0%nat) as Hu by lia.
    apply union_empty_size in Hu as [-> _].
    apply (left_absorb_L ∅ (∩)).
Qed.

Lemma gset_inter_union_eq (A B : gset string) : A ∩ B = A ∪ B → A = B.
Proof.
  intros H. apply set_eq. intros x. split; intros Hx.
  - assert (x ∈ A ∩ B) as Hx' by (rewrite H; by apply elem_of_union_l).
    by apply elem_of_intersection in Hx' as [_ ?].
  - assert (x ∈ A ∩ B) as Hx' by (rewrite H; by apply elem_of_union_r).
    by apply elem_of_intersection in Hx' as [? _].
Qed.

(** X2.  The score is one exactly when the query and the document have
    the same tokens and there is at least one. *)
Theorem score_one_iff_same_tokens (query doc : string) :
  (score_of query doc == 1)%Q ↔ tokens query = tokens doc ∧ tokens query ≠ ∅.
Proof.
  rewrite score_of_unfold.
  set (A := tokens query). set (B := tokens doc).
  destruct (Nat.ltb_spec 0 (size (A ∪ B))) as [Hpos|Hzero].
  - rewrite true_div_one by done. split.
    + intros Hsize.
      assert (A ∩ B = A ∪ B) as Heq.
      { apply set_subseteq_size_eq; [|lia].
        etrans; [apply intersection_subseteq_l | apply union_subseteq_l]. }
      apply gset_inter_union_eq in Heq. split; [done|].
      intros HA. assert (size (A ∪ B) = 0%nat); [|lia].
      apply union_empty_size. by rewrite <- Heq.
    + intros [<- _]. by rewrite (idemp_L (∩) A), (idemp_L (∪) A).
  - split; [intros H; symmetry in H; by apply Q_apart_0_1 in H|].
    intros [_ HA]. destruct HA.
    assert (size (A ∪ B) = 0%nat) as Hu by lia.
    by apply union_empty_size in Hu as [-> _].
Qed.

Lemma lower_char_idemp c :
  PyStr.lower_char (PyStr.lower_char c) = PyStr.lower_char c.
Proof. by destruct c as [[] [] [] [] [] [] [] []]. Qed.

Lemma lower_idemp s : PyStr.lower (PyStr.lower s) = PyStr.lower s.
Proof.
  induction s as [|c s IH]; simpl; [done|].
  by rewrite lower_char_idemp, IH.
Qed.

(** X3.  Letter case plays no part: lower-casing the query or the
    document beforehand leaves the score unchanged. *)
Theorem score_ignores_case (query doc : string) :
  score_of (PyStr.lower query) doc = score_of query doc
  ∧ score_of query (PyStr.lower doc) = score_of query doc.
Proof.
  unfold score_of, similarity. by rewrite !lower_idemp.
Qed.

(** Cutting a text that has a whitespace character in it cuts the part
    before and the part after that character. *)
Lemma split_from_app_space c a b : ∀ acc,
  PyStr.isspace c = true →
  PyStr.split_from acc (a ++ String c b)
  = (PyStr.split_from acc a ++ PyStr.split b)%list.
Proof.
  induction a as [|x a IH]; intros acc Hc; simpl.
  - by rewrite Hc.
  - destruct (PyStr.isspace x).
    + by rewrite IH, app_assoc.
    + by apply IH.
Qed.

Lemma tokens_app_space c a b :
  PyStr.isspace c = true →
  tokens (a ++ String c b) = tokens a ∪ tokens b.
Proof.
  intros Hc. unfold tokens, PyStr.split.
  by rewrite split_from_app_space, fmap_app, list_to_set_app_L.
Qed.

Lemma score_of_tokens q q' d d' :
  tokens q = tokens q' → tokens d = tokens d' → score_of q d = score_of q' d'.
Proof. intros Hq Hd. by rewrite !score_of_unfold, Hq, Hd. Qed.

(** X4.  The score sees the query as a set of words: the order of two
    parts separated by a blank, and the repetition of a part, do not
    change it. *)
Theorem score_ignores_word_order_and_repetition (a b doc : string) :
  score_of (a ++ " " ++ b) doc = score_of (b ++ " " ++ a) doc
  ∧ score_of (a ++ " " ++ a) doc = score_of a doc.
Proof.
  change (a ++ " " ++ b) with (a ++ String " "%char b).
  change (b ++ " " ++ a) with (b ++ String " "%char a).
  change (a ++ " " ++ a) with (a ++ String " "%char a).
  split; apply score_of_tokens; try done.
  - rewrite !tokens_app_space by done.
    apply set_eq. intros x. rewrite !elem_of_union. tauto.
  - rewrite tokens_app_space by done.
    apply set_eq. intros x. rewrite elem_of_union. tauto.
Qed.

(** ** The entries of the result *)

Lemma entries_elem q docs : ∀ i j d,
  docs !! j = Some d →
  {| index := i + j; score := score_of q d |} ∈ entries q i docs.
Proof.
  induction docs as [|d0 docs IH]; intros i j d Hj; [done|].
  destruct j as [|j]; simpl in *.
  - injection Hj as ->. rewrite Nat.add_0_r. apply elem_of_cons. by left.
  - apply elem_of_cons. right.
    replace (i + S j)%nat with (S i + j)%nat by lia. by apply IH.
Qed.

Lemma entries_lookup q docs : ∀ i r,
  r ∈ entries q i docs →
  (i ≤ index r)%nat
  ∧ ∃ d, docs !! (index r - i)%nat = Some d ∧ score r = score_of q d.
Proof.
  induction docs as [|d0 docs IH]; intros i r Hr; simpl in Hr.
  { by apply elem_of_nil in Hr. }
  apply elem_of_cons in Hr as [->|Hr]; simpl.
  - split; [done|]. exists d0. by rewrite Nat.sub_diag.
  - destruct (IH _ _ Hr) as (Hle & d & Hd & Hs).
    split; [lia|]. exists d. split; [|done].
    by replace (index r - i)%nat with (S (index r - S i)) by lia.
Qed.

Lemma slice_to_subseteq {A} (l : list A) k : slice_to l k ⊆ l.
Proof. apply subseteq_take. Qed.

Lemma ranking_elem q docs r : r ∈ ranking q docs ↔ r ∈ entries q 0 docs.
Proof. unfold ranking. by rewrite sort_by_score_desc_perm. Qed.

(** X5.  When the model loads, every entry of the result carries the
    score of the document its index points at, whatever [top_k] is. *)
Theorem result_entry_scores_its_document {M T : Type}
    (load : string → result (M * T))
    (query : string) (docs : list string) (model_path : string) (top_k : Z)
    (mt : M * T) :
  load model_path = inr mt →
  ∃ rs, rerank_documents load query (PStr <$> docs) model_path top_k = inr rs
        ∧ ∀ r, r ∈ rs →
            ∃ d, docs !! index r = Some d ∧ score r = score_of query d.
Proof.
  intros Hload. eexists. split; [by eapply rerank_documents_strings|].
  intros r Hr. apply slice_to_subseteq, ranking_elem in Hr.
  destruct (entries_lookup _ _ _ _ Hr) as (_ & d & Hd & Hs).
  exists d. by rewrite Nat.sub_0_r in Hd.
Qed.

Lemma result_entry_scores_its_document_witness :
  ∃ rs, rerank_documents one_model_load "apple banana" (PStr <$> sample_docs)
          "models/jina" 2 = inr rs
        ∧ ∀ r, r ∈ rs →
            ∃ d, sample_docs !! index r = Some d
                 ∧ score r = score_of "apple banana" d.
Proof.
  apply (result_entry_scores_its_document one_model_load "apple banana"
           sample_docs "models/jina" 2 (tt, tt) eq_refl).
Defined.

(** X6.  When the model loads, the scores in the result lie between 0
    and 1, whatever [top_k] is. *)
Theorem result_scores_in_unit_interval {M T : Type}
    (load : string → result (M * T))
    (query : string) (docs : list string) (model_path : string) (top_k : Z)
    (mt : M * T) :
  load model_path = inr mt →
  ∃ rs, rerank_documents load query (PStr <$> docs) model_path top_k = inr rs
        ∧ Forall (λ r, (0 <= score r <= 1)%Q) rs.
Proof.
  intros Hload. eexists. split; [by eapply rerank_documents_strings|].
  apply Forall_forall. intros r Hr.
  apply slice_to_subseteq, ranking_elem in Hr.
  destruct (entries_lookup _ _ _ _ Hr) as (_ & d & _ & ->).
  rewrite score_of_unfold.
  destruct (Nat.ltb_spec 0 (size (tokens query ∪ tokens d))); [|done].
  apply true_div_bounds; [|done]. apply subseteq_size.
  etrans; [apply intersection_subseteq_l | apply union_subseteq_l].
Qed.

Lemma result_scores_in_unit_interval_witness :
  ∃ rs, rerank_documents one_model_load "apple banana" (PStr <$> sample_docs)
          "models/jina" (-1) = inr rs
        ∧ Forall (λ r, (0 <= score r <= 1)%Q) rs.
Proof.
  apply (result_scores_in_unit_interval one_model_load "apple banana"
           sample_docs "models/jina" (-1) (tt, tt) eq_refl).
Defined.

(** X7.  When the model loads, no document left out of the result scores
    higher than an entry of the result: the result holds best-scoring
    documents, whatever [top_k] is. *)
Theorem result_holds_best_documents {M T : Type}
    (load : string → result (M * T))
    (query : string) (docs : list string) (model_path : string) (top_k : Z)
    (mt : M * T) :
  load model_path = inr mt →
  ∃ rs, rerank_documents load query (PStr <$> docs) model_path top_k = inr rs
        ∧ ∀ r (i : nat) d, r ∈ rs → docs !! i = Some d →
            i ∉ index <$> rs → (score_of query d <= score r)%Q.
Proof.
  intros Hload. eexists. split; [by eapply rerank_documents_strings|].
  unfold slice_to. set (n := slice_stop _ _).
  intros r i d Hr Hd Hout.
  pose proof (ranking_ranked query docs) as Hranked.
  rewrite <- (take_drop n (ranking query docs)) in Hranked.
  assert ({| index := i; score := score_of query d |} ∈ ranking query docs)
    as He by (apply ranking_elem, (entries_elem query docs 0 i d Hd)).
  rewrite <- (take_drop n (ranking query docs)) in He.
  apply elem_of_app in He as [He|He].
  - destruct Hout. by apply (list_elem_of_fmap_2 index) in He.
  - by destruct (StronglySorted_app_1_elem_of _ _ _ _ _ Hranked Hr He).
Qed.

Lemma result_holds_best_documents_witness :
  ∃ rs, rerank_documents one_model_load "apple banana" (PStr <$> sample_docs)
          "models/jina" 2 = inr rs
        ∧ ∀ r (i : nat) d, r ∈ rs → sample_docs !! i = Some d →
            i ∉ index <$> rs → (score_of "apple banana" d <= score r)%Q.
Proof.
  apply (result_holds_best_documents one_model_load "apple banana"
           sample_docs "models/jina" 2 (tt, tt) eq_refl).
Defined.

(** ** How [top_k] cuts the ranking *)

(** X8.  When the model loads and [top_k] is at least the number of
    documents, every document appears in the result exactly once. *)
Theorem large_top_k_returns_every_document {M T : Type}
    (load : string → result (M * T))
    (query : string) (docs : list string) (model_path : string) (top_k : Z)
    (mt : M * T) :
  load model_path = inr mt →
  (Z.of_nat (length docs) ≤ top_k)%Z →
  ∃ rs, rerank_documents load query (PStr <$> docs) model_path top_k = inr rs
        ∧ length rs = length docs
        ∧ index <$> rs ≡ₚ seq 0 (length docs).
Proof.
  intros Hload Hk. eexists. split; [by eapply rerank_documents_strings|].
  pose proof (ranking_length query docs) as Hlen.
  unfold slice_to. rewrite Hlen, slice_stop_nonneg by lia.
  rewrite take_ge by lia. split; [done|]. apply ranking_index.
Qed.

Lemma large_top_k_returns_every_document_witness :
  ∃ rs, rerank_documents one_model_load "apple banana" (PStr <$> sample_docs)
          "models/jina" 10 = inr rs
        ∧ length rs = 3%nat
        ∧ index <$> rs ≡ₚ [0; 1; 2]%nat.
Proof.
  apply (large_top_k_returns_every_document one_model_load "apple banana"
           sample_docs "models/jina" 10 (tt, tt) eq_refl).
  simpl. lia.
Defined.

(** X9.  When the model loads, asking for fewer results gives a prefix of
    what asking for more gives: for [0 <= k <= k'] the result for [k] is
    the first [k] entries of the result for [k']. *)
Theorem smaller_top_k_gives_prefix {M T : Type}
    (load : string → result (M * T))
    (query : string) (docs : list string) (model_path : string) (k k' : Z)
    (mt : M * T) :
  load model_path = inr mt →
  (0 ≤ k ≤ k')%Z →
  ∃ rs rs',
    rerank_documents load query (PStr <$> docs) model_path k = inr rs
    ∧ rerank_documents load query (PStr <$> docs) model_path k' = inr rs'
    ∧ rs = take (Z.to_nat k) rs'.
Proof.
  intros Hload Hk. do 2 eexists.
  split; [by eapply rerank_documents_strings|].
  split; [by eapply rerank_documents_strings|].
  unfold slice_to. rewrite !slice_stop_nonneg by lia.
  rewrite take_take. f_equal. lia.
Qed.

Lemma smaller_top_k_gives_prefix_witness :
  ∃ rs rs',
    rerank_documents one_model_load "apple banana" (PStr <$> sample_docs)
      "models/jina" 1 = inr rs
    ∧ rerank_documents one_model_load "apple banana" (PStr <$> sample_docs)
        "models/jina" 2 = inr rs'
    ∧ rs = take 1 rs'.
Proof.
  apply (smaller_top_k_gives_prefix one_model_load "apple banana"
           sample_docs "models/jina" 1 2 (tt, tt) eq_refl).
  lia.
Defined.

(** ** Inputs the sort leaves in place *)

(** The sort changes nothing in a list whose scores never increase. *)
Lemma sort_by_score_desc_sorted_id l :
  StronglySorted (λ a b, (score b <= score a)%Q) l →
  sort_by_score_desc l = l.
Proof.
  induction 1 as [|x l Hl IH Hx]; simpl; [done|].
  rewrite IH. destruct l as [|y l]; simpl; [done|].
  apply Forall_cons in Hx as [Hxy _].
  destruct (score x ?= score y)%Q eqn:Hc; [done| |done].
  apply Qlt_alt in Hc. lra.
Qed.

Lemma entries_keep_order q docs : ∀ i,
  StronglySorted (λ d d', (score_of q d' <= score_of q d)%Q) docs →
  StronglySorted (λ a b, (score b <= score a)%Q) (entries q i docs).
Proof.
  intros i Hdocs. revert i.
  induction Hdocs as [|d docs Hdocs IH Hd]; intros i; simpl; constructor;
    [done|].
  apply Forall_forall. intros r Hr.
  destruct (entries_lookup _ _ _ _ Hr) as (_ & d' & Hd' & ->). simpl.
  rewrite Forall_forall in Hd. eapply Hd, list_elem_of_lookup_2, Hd'.
Qed.

Lemma slice_of_entries_index q docs k :
  let rs := slice_to (entries q 0 docs) k in
  index <$> rs = seq 0 (length rs).
Proof.
  unfold slice_to. simpl.
  by rewrite fmap_take, entries_index, take_seq, length_take, entries_length.
Qed.

(** X10.  When the model loads and the documents are given with scores
    that never increase, the result lists them in the order of the input:
    its indices are 0, 1, 2, ... *)
Theorem ranked_input_keeps_its_order {M T : Type}
    (load : string → result (M * T))
    (query : string) (docs : list string) (model_path : string) (top_k : Z)
    (mt : M * T) :
  load model_path = inr mt →
  StronglySorted (λ d d', (score_of query d' <= score_of query d)%Q) docs →
  ∃ rs, rerank_documents load query (PStr <$> docs) model_path top_k = inr rs
        ∧ index <$> rs = seq 0 (length rs).
Proof.
  intros Hload Hdocs. eexists.
  split; [by eapply rerank_documents_strings|].
  unfold ranking.
  rewrite (sort_by_score_desc_sorted_id _ (entries_keep_order _ _ 0 Hdocs)).
  apply slice_of_entries_index.
Qed.

Lemma ranked_input_keeps_its_order_witness :
  ∃ rs, rerank_documents one_model_load "apple banana"
          (PStr <$> ["banana apple"; "apple"; "cherry"]) "models/jina" 2 = inr rs
        ∧ index <$> rs = seq 0 (length rs).
Proof.
  apply (ranked_input_keeps_its_order one_model_load "apple banana"
           ["banana apple"; "apple"; "cherry"] "models/jina" 2 (tt, tt) eq_refl).
  repeat constructor; vm_compute; discriminate.
Defined.

Lemma score_of_empty_query q d : tokens q = ∅ → (score_of q d == 0)%Q.
Proof.
  intros Hq. rewrite score_of_unfold, Hq.
  destruct (Nat.ltb_spec 0 (size (∅ ∪ tokens d))); [|done].
  apply true_div_zero; [done|].
  apply gset_size_zero, (left_absorb_L ∅ (∩)).
Qed.

(** X11.  When the model loads and the query has no token (it is empty
    or blank), every score of the result is zero and the result lists the
    documents in the order of the input. *)
Theorem blank_query_keeps_input_order {M T : Type}
    (load : string → result (M * T))
    (query : string) (docs : list string) (model_path : string) (top_k : Z)
    (mt : M * T) :
  load model_path = inr mt →
  tokens query = ∅ →
  ∃ rs, rerank_documents load query (PStr <$> docs) model_path top_k = inr rs
        ∧ Forall (λ r, (score r == 0)%Q) rs
        ∧ index <$> rs = seq 0 (length rs).
Proof.
  intros Hload Hq. eexists.
  split; [by eapply rerank_documents_strings|].
  assert (StronglySorted (λ d d', (score_of query d' <= score_of query d)%Q) docs)
    as Hdocs.
  { induction docs as [|d ds IH]; constructor; [done|].
    apply Forall_forall. intros d' _.
    rewrite !score_of_empty_query by done. lra. }
  unfold ranking.
  rewrite (sort_by_score_desc_sorted_id _ (entries_keep_order _ _ 0 Hdocs)).
  split; [|apply slice_of_entries_index].
  apply Forall_forall. intros r Hr. apply slice_to_subseteq in Hr.
  destruct (entries_lookup _ _ _ _ Hr) as (_ & d & _ & ->).
  by apply score_of_empty_query.
Qed.

Lemma blank_query_keeps_input_order_witness :
  ∃ rs, rerank_documents one_model_load "  " (PStr <$> sample_docs)
          "models/jina" 2 = inr rs
        ∧ Forall (λ r, (score r == 0)%Q) rs
        ∧ index <$> rs = seq 0 (length rs).
Proof.
  apply (blank_query_keeps_input_order one_model_load "  " sample_docs
           "models/jina" 2 (tt, tt) eq_refl).
  reflexivity.
Defined.

(** ** What a run prints *)

Section Run.

Context {model tokenizer : Type}.
Variable load : string → result (model * tokenizer).
Variable json_loads : string → result pyobj.
Variable args : arguments.


Lemma main_body_strings strs mt :
  json_loads (arg_documents args) = inr (PList (PStr <$> strs)) →
  load (arg_model args) = inr mt →
  main_body load json_loads args
  = inr (slice_to (ranking (arg_query args) strs) (arg_top_k args)).
Proof.
  intros Hjson Hload. unfold main_body. rewrite Hjson. simpl.
  by apply rerank_documents_strings with mt.
Qed.

Lemma main_body_raises_after_decoding v e :
  json_loads (arg_documents args) = inr v →
  main_body load json_loads args = inl e →
  is_JSONDecodeError e = false
  ∧ (exn_str e = "Documents must be a JSON array"
     ∨ ∃ cause, exn_str e = "Reranking failed: " ++ cause).
Proof.
  unfold main_body. intros -> He. simpl in He.
  assert (∀ l, rerank_documents load (arg_query args) l (arg_model args)
                 (arg_top_k args) = inl e →
               is_JSONDecodeError e = false
               ∧ ∃ cause, exn_str e = "Reranking failed: " ++ cause) as Hrr.
  { intros l. unfold rerank_documents, wrap_exceptions.
    destruct (let* _mt := load_model load (arg_model args) in _) as [e'|rs];
      [|done].
    intros [= <-]. eauto. }
  destruct v; simpl in He;
    try (injection He as <-; split; [done | by left]).
  destruct (Hrr _ He) as [? ?]. eauto.
Qed.

End Run.



(** X14.  When [--documents] decodes to an array of strings and the model
    loads, [main] prints on standard output exactly the list that
    [rerank_documents] returns for these strings, and exits with 0. *)
Theorem main_prints_reranked_documents {M T : Type}
    (load : string → result (M * T))
    (json_loads : string → result pyobj) (args : arguments)
    (strs : list string) (mt : M * T) :
  json_loads (arg_documents args) = inr (PList (PStr <$> strs)) →
  load (arg_model args) = inr mt →
  ∃ rs,
    rerank_documents load (arg_query args) (PStr <$> strs) (arg_model args)
      (arg_top_k args) = inr rs
    ∧ main load json_loads args
      = {| stdout := [ResultsObject rs]; stderr := []; exit_status := 0 |}.
Proof.
  intros Hjson Hload. eexists.
  split; [by eapply rerank_documents_strings|].
  unfold main. by rewrite (main_body_strings _ _ _ _ _ Hjson Hload).
Qed.

Lemma main_prints_reranked_documents_witness :
  ∃ rs,
    rerank_documents one_model_load "apple" (PStr <$> ["apple pie"; "Apple"])
      "models/jina" 10 = inr rs
    ∧ main one_model_load array_json_loads array_args
      = {| stdout := [ResultsObject rs]; stderr := []; exit_status := 0 |}.
Proof.
  apply (main_prints_reranked_documents one_model_load array_json_loads
           array_args ["apple pie"; "Apple"] (tt, tt) eq_refl eq_refl).
Defined.

(** X15.  When [--documents] decodes but the run fails, the message on
    standard error is either [Documents must be a JSON array] or a
    message of [rerank_documents], which begins with
    [Reranking failed: ]. *)
Theorem main_failure_after_decoding {M T : Type}
    (load : string → result (M * T))
    (json_loads : string → result pyobj) (args : arguments) (v : pyobj) :
  json_loads (arg_documents args) = inr v →
  exit_status (main load json_loads args) = 1%Z →
  stdout (main load json_loads args) = []
  ∧ ∃ msg, stderr (main load json_loads args) = [ErrorObject msg]
           ∧ (msg = "Documents must be a JSON array"
              ∨ ∃ cause, msg = "Reranking failed: " ++ cause).
Proof.
  intros Hv. unfold main.
  destruct (main_body load json_loads args) as [e|rs] eqn:Hbody; [|done].
  destruct (main_body_raises_after_decoding _ _ _ _ _ Hv Hbody) as [-> Hmsg].
  simpl. eauto.
Qed.

Lemma main_failure_after_decoding_witness :
  stdout (main one_model_load array_json_loads
            {| arg_query := "apple"; arg_model := "models/jina";
               arg_top_k := 10; arg_documents := "[1]" |}) = []
  ∧ ∃ msg, stderr (main one_model_load array_json_loads
                     {| arg_query := "apple"; arg_model := "models/jina";
                        arg_top_k := 10; arg_documents := "[1]" |})
           = [ErrorObject msg]
           ∧ (msg = "Documents must be a JSON array"
              ∨ ∃ cause, msg = "Reranking failed: " ++ cause).
Proof.
  apply (main_failure_after_decoding one_model_load array_json_loads
           {| arg_query := "apple"; arg_model := "models/jina";
              arg_top_k := 10; arg_documents := "[1]" |}
           (PList [PInt 1]) eq_refl eq_refl).
Defined.

(** X16.  When decoding [--documents] raises, nothing is loaded or
    scored: the run prints the decoder's message on standard error, with
    the prefix [Invalid JSON in documents: ] for a [JSONDecodeError] and
    as it is for any other exception, and exits with 1. *)
Theorem main_decoding_failure {M T : Type} (load : string → result (M * T))
    (json_loads : string → result pyobj) (args : arguments) (e : exn) :
  json_loads (arg_documents args) = inl e →
  main load json_loads args
  = {| stdout := [];
       stderr := [ErrorObject
                    (if is_JSONDecodeError e
                     then "Invalid JSON in documents: " ++ exn_str e
                     else exn_str e)];
       exit_status := 1 |}.
Proof.
  intros He. unfold main, main_body. rewrite He. simpl.
  by destruct (is_JSONDecodeError e).
Qed.

Lemma main_decoding_failure_witness :
  main one_model_load array_json_loads
    {| arg_query := "apple"; arg_model := "models/none"; arg_top_k := 10;
       arg_documents := "[1" |}
  = {| stdout := [];
       stderr := [ErrorObject
         "Invalid JSON in documents: Expecting value: line 1 column 1 (char 0)"];
       exit_status := 1 |}.
Proof.
  apply (main_decoding_failure one_model_load array_json_loads
           {| arg_query := "apple"; arg_model := "models/none";
              arg_top_k := 10; arg_documents := "[1" |}
           (Raise JSONDecodeError "Expecting value: line 1 column 1 (char 0)")
           eq_refl).
Defined.

(** X17.  The model is loaded before any document is looked at: when
    [--documents] decodes to an array and loading fails, the run reports
    the loading failure, with the path and the cause, whatever the array
    holds, and exits with 1. *)
Theorem main_reports_load_failure_first {M T : Type}
    (load : string → result (M * T))
    (json_loads : string → result pyobj) (args : arguments)
    (l : list pyobj) (e : exn) :
  json_loads (arg_documents args) = inr (PList l) →
  load (arg_model args) = inl e →
  main load json_loads args
  = {| stdout := [];
       stderr := [ErrorObject
                    ("Reranking failed: Failed to load model from "
                     ++ arg_model args ++ ": " ++ exn_str e)];
       exit_status := 1 |}.
Proof.
  intros Hjson Hload.
  unfold main, main_body, rerank_documents, load_model.
  by rewrite Hjson, Hload.
Qed.

Lemma main_reports_load_failure_first_witness :
  main one_model_load array_json_loads
    {| arg_query := "apple"; arg_model := "models/none"; arg_top_k := 10;
       arg_documents := "[1]" |}
  = {| stdout := [];
       stderr := [ErrorObject
         "Reranking failed: Failed to load model from models/none: no such directory"];
       exit_status := 1 |}.
Proof.
  apply (main_reports_load_failure_first one_model_load array_json_loads
           {| arg_query := "apple"; arg_model := "models/none";
              arg_top_k := 10; arg_documents := "[1]" |}
           [PInt 1]
           (Raise (OtherException "FileNotFoundError") "no such directory")
           eq_refl eq_refl).
Defined.

(** X18.  When the model loads and the decoded array holds a value that
    is not a string, the run prints no result at all: it reports the
    first such value by its type and exits with 1. *)
Theorem main_rejects_non_string_document {M T : Type}
    (load : string → result (M * T))
    (json_loads : string → result pyobj) (args : arguments)
    (pre : list string) (v : pyobj) (post : list pyobj) (mt : M * T) :
  json_loads (arg_documents args) = inr (PList ((PStr <$> pre) ++ v :: post)) →
  load (arg_model args) = inr mt →
  (∀ s, v ≠ PStr s) →
  main load json_loads args
  = {| stdout := [];
       stderr := [ErrorObject
                    ("Reranking failed: '" ++ type_name v
                     ++ "' object has no attribute 'lower'")];
       exit_status := 1 |}.
Proof.
  intros Hjson Hload Hv.
  unfold main, main_body, rerank_documents.
  rewrite Hjson, (load_model_returns _ _ _ Hload). simpl.
  by rewrite score_loop_raises.
Qed.

Lemma main_rejects_non_string_document_witness :
  main one_model_load array_json_loads
    {| arg_query := "apple"; arg_model := "models/jina"; arg_top_k := 10;
       arg_documents := "[1]" |}
  = {| stdout := [];
       stderr := [ErrorObject
         "Reranking failed: 'int' object has no attribute 'lower'"];
       exit_status := 1 |}.
Proof.
  apply (main_rejects_non_string_document one_model_load array_json_loads
           {| arg_query := "apple"; arg_model := "models/jina";
              arg_top_k := 10; arg_documents := "[1]" |}
           [] (PInt 1) [] (tt, tt) eq_refl eq_refl).
  intros s Hs. discriminate Hs.
Defined.
